(** * GSD trajectory reader: [MDAnalysis.coordinates.GSD]

    A shallow embedding of [GSDReader] (package/MDAnalysis/coordinates/GSD.py)
    and the properties of its frame reads: the triclinic box decode, the
    particle-count check, the translation of the container's [IndexError],
    sequential reads, reopening and the platform guard.

    The reader is a Python object mutated in place, and an exception leaves
    every assignment made before it in force.  Methods are therefore
    computations in a state-and-exception monad whose state survives a
    raise. *)

From stdpp Require Import base gmap strings list pretty.
From Stdlib Require Import ZArith Lia Ascii.

Local Open Scope Z_scope.

(** ** Floating-point arithmetic

    The box descriptor is a [numpy] array and the decode runs in whatever
    precision [numpy] gives its scalars.  The operations the source uses are
    the fields of an interface; nothing proved below assumes a law of
    them, so every statement holds whatever rounding and promotion the
    operations perform. *)

Class Float (F : Type) := {
  of_int : Z → F;          (* an integer literal, promoted *)
  lit_180 : F;             (* [180.0] *)
  np_pi : F;               (* [np.pi] *)
  add : F → F → F;
  mul : F → F → F;
  div : F → F → F;
  pow2 : F → F;            (* [x**2] *)
  np_sqrt : F → F;
  np_arccos : F → F
}.

Declare Scope np_scope.
Delimit Scope np_scope with np.
Infix "+" := add : np_scope.
Infix "*" := mul : np_scope.
Infix "/" := div : np_scope.

(** ** Exceptions and the method monad *)

Inductive exn :=
  | NotImplementedError (msg : string)
  | IOError
  | IndexError
  | ValueError (msg : string).

Definition is_IndexError (e : exn) : bool :=
  match e with IndexError => true | _ => false end.

(** A computation over a mutable state [S]: the outcome is an exception or a
    value, and the state is returned in both cases. *)
Definition M (S A : Type) : Type := S → (exn + A) * S.

Definition raise {S A} (e : exn) : M S A := λ s, (inl e, s).
Definition gets {S A} (f : S → A) : M S A := λ s, (inr (f s), s).
Definition modify {S} (f : S → S) : M S unit := λ s, (inr tt, f s).
(** [try: c except h]: only the handler sees the exception of [c]. *)
Definition try_except {S A} (c : M S A) (h : exn → M S A) : M S A :=
  λ s, match c s with
       | (inl e, s') => h e s'
       | (inr a, s') => (inr a, s')
       end.

#[global] Instance M_ret {S} : MRet (M S) := λ A a s, (inr a, s).
#[global] Instance M_bind {S} : MBind (M S) := λ A B k c s,
  match c s with
  | (inl e, s') => (inl e, s')
  | (inr a, s') => k a s'
  end.

(** A method of the reader that leaves the outside world alone, and an
    operation on the world that does not touch the reader, run on the pair. *)
Definition on_self {R W A} (c : M R A) : M (R * W) A :=
  λ '(r, w), let '(res, r') := c r in (res, (r', w)).
Definition on_world {R W A} (c : M W A) : M (R * W) A :=
  λ '(r, w), let '(res, w') := c w in (res, (r, w')).

(** ** The container: [gsd.hoomd]

    [gsd] is an external library.  What the reader consumes of it is the
    contract of the specification: a handle opened from a path, indexable
    by frame ([handle[index]] answers a frame or the out-of-range signal
    [IndexError]), with a length; a frame has a configuration (step, box)
    and particles (declared count [N], position, velocity and image
    arrays). *)

Module gsd.
Section Frames.
Context {F : Type}.

(** The 6-component box descriptor [[Lx, Ly, Lz, xy, xz, yz]]. *)
Record Box := mkBox { Lx : F; Ly : F; Lz : F; xy : F; xz : F; yz : F }.

Record ConfigurationData := { step : Z; box : Box }.

Record ParticleData := {
  N : Z;
  position : list (F * F * F);
  velocity : list (F * F * F);
  image : list (Z * Z * Z)
}.

Record Snapshot := {
  configuration : ConfigurationData;
  particles : ParticleData
}.

(** An open (or closed) trajectory handle.  [negative_keys] says whether
    this container counts a negative key from the end, as Python
    sequences do; the reader does not depend on the answer. *)
Record HOOMDTrajectory := {
  name : string;
  frames : list Snapshot;
  is_open : bool;
  negative_keys : bool
}.

Definition nframes (h : HOOMDTrajectory) : Z := Z.of_nat (length (frames h)).

(** Modelled from the spec: [len(handle) -> frame count]. *)
Definition len (h : HOOMDTrajectory) : exn + Z :=
  if is_open h then inr (nframes h) else inl (ValueError "File is not open").

(** Modelled from the spec: [handle[index] -> frame or out-of-range
    signal].  A key is first counted from the end where the container takes
    negative keys; a closed handle has no length to look a key up in, and
    the error of asking for it is not the out-of-range signal. *)
Definition getitem (h : HOOMDTrajectory) (key : Z) : exn + Snapshot :=
  match len h with
  | inl e => inl e
  | inr n =>
    let key := if negative_keys h && (key <? 0) then key + n else key in
    if (n <=? key) || (key <? 0) then inl IndexError
    else match frames h !! Z.to_nat key with
         | Some f => inr f
         | None => inl IndexError
         end
  end.

(** [handle.file.close()] *)
Definition file_close (h : HOOMDTrajectory) : HOOMDTrajectory :=
  {| name := name h; frames := frames h; is_open := false;
     negative_keys := negative_keys h |}.
End Frames.
Arguments Box : clear implicits.
Arguments ConfigurationData : clear implicits.
Arguments ParticleData : clear implicits.
Arguments Snapshot : clear implicits.
Arguments HOOMDTrajectory : clear implicits.
End gsd.

(** ** The world outside the reader *)

Inductive io_event :=
  | EvOpen (path : string)
  | EvClose (path : string).

Section Reader.
Context {F : Type} `{Float F}.

(** Indexing an array is total in the model; the arrays indexed below have
    six slots by construction. *)
#[local] Instance F_inhabited : Inhabited F := populate (of_int 0).

(** The platform ([os.name]), the files that hold a container, whether the
    installed container library takes negative keys, and the file
    operations performed so far, latest first. *)
Record World := {
  os_name : string;
  disk : gmap string (list (gsd.Snapshot F));
  gsd_negative_keys : bool;
  io_log : list io_event
}.

Definition log_io (ev : io_event) (w : World) : World :=
  {| os_name := os_name w; disk := disk w;
     gsd_negative_keys := gsd_negative_keys w; io_log := ev :: io_log w |}.

(** Modelled from the spec: [gsd.hoomd.open(name, mode='rb')] "fails with
    IOError if the path cannot be opened or is not a valid container". *)
Definition gsd_hoomd_open (path : string) : M World (gsd.HOOMDTrajectory F) :=
  modify (log_io (EvOpen path)) ;;
  contents ← gets (λ w, disk w !! path) ;
  neg ← gets gsd_negative_keys ;
  match contents with
  | None => raise IOError
  | Some fs =>
    mret {| gsd.name := path; gsd.frames := fs; gsd.is_open := true;
            gsd.negative_keys := neg |}
  end.

(** [handle.file.close()], seen from the world. *)
Definition gsd_file_close (h : gsd.HOOMDTrajectory F)
  : M World (gsd.HOOMDTrajectory F) :=
  (if gsd.is_open h then modify (log_io (EvClose (gsd.name h))) else mret tt) ;;
  mret (gsd.file_close h).

(** ** The timestep *)

(** Modelled from the spec: [base.Timestep] is not part of the source
    file; it is the record "with named fields the core must populate:
    frame index, step counter, box dimensions, tilt factors, positions,
    velocities, images".  [data] is the dictionary that receives the step
    under the key ["step"]; [dimensions] is the six-slot array written
    through by index.  An attribute that no read has assigned yet is
    [None]. *)
Record Timestep := {
  frame : Z;
  data : gmap string Z;
  dimensions : list F;
  tilt_factors : option (list F);
  positions : list (F * F * F);
  velocities : option (list (F * F * F));
  images : option (list (Z * Z * Z))
}.

(** Modelled from the spec: the constructor "allocates a FrameState sized
    for that many particles"; no frame is decoded yet. *)
Definition new_Timestep (n_atoms : Z) : Timestep :=
  {| frame := -1; data := ∅;
     dimensions := replicate 6 (of_int 0);
     tilt_factors := None;
     positions := replicate (Z.to_nat n_atoms) (of_int 0, of_int 0, of_int 0);
     velocities := None;
     images := None |}.

Definition set_ts_frame (v : Z) (t : Timestep) : Timestep :=
  {| frame := v; data := data t; dimensions := dimensions t;
     tilt_factors := tilt_factors t; positions := positions t;
     velocities := velocities t; images := images t |}.
Definition set_ts_data (k : string) (v : Z) (t : Timestep) : Timestep :=
  {| frame := frame t; data := <[k:=v]> (data t); dimensions := dimensions t;
     tilt_factors := tilt_factors t; positions := positions t;
     velocities := velocities t; images := images t |}.
(** [ts.dimensions = box] copies the six values into the timestep's own
    array. *)
Definition set_ts_dimensions (b : gsd.Box F) (t : Timestep) : Timestep :=
  {| frame := frame t; data := data t;
     dimensions := [gsd.Lx b; gsd.Ly b; gsd.Lz b; gsd.xy b; gsd.xz b; gsd.yz b];
     tilt_factors := tilt_factors t; positions := positions t;
     velocities := velocities t; images := images t |}.
(** [ts.dimensions[i] = v] *)
Definition set_ts_dimensions_at (i : nat) (v : F) (t : Timestep) : Timestep :=
  {| frame := frame t; data := data t; dimensions := <[i:=v]> (dimensions t);
     tilt_factors := tilt_factors t; positions := positions t;
     velocities := velocities t; images := images t |}.
Definition set_ts_tilt_factors (v : list F) (t : Timestep) : Timestep :=
  {| frame := frame t; data := data t; dimensions := dimensions t;
     tilt_factors := Some v; positions := positions t;
     velocities := velocities t; images := images t |}.
Definition set_ts_positions (v : list (F * F * F)) (t : Timestep) : Timestep :=
  {| frame := frame t; data := data t; dimensions := dimensions t;
     tilt_factors := tilt_factors t; positions := v;
     velocities := velocities t; images := images t |}.
Definition set_ts_images (v : list (Z * Z * Z)) (t : Timestep) : Timestep :=
  {| frame := frame t; data := data t; dimensions := dimensions t;
     tilt_factors := tilt_factors t; positions := positions t;
     velocities := velocities t; images := Some v |}.
Definition set_ts_velocities (v : list (F * F * F)) (t : Timestep) : Timestep :=
  {| frame := frame t; data := data t; dimensions := dimensions t;
     tilt_factors := tilt_factors t; positions := positions t;
     velocities := Some v; images := images t |}.

(** ** The reader object *)
Record GSDReader := {
  filename : string;
  _file : gsd.HOOMDTrajectory F;
  _frame : Z;
  n_atoms : Z;
  ts : Timestep
}.

Definition set_filename (v : string) (r : GSDReader) : GSDReader :=
  {| filename := v; _file := _file r; _frame := _frame r;
     n_atoms := n_atoms r; ts := ts r |}.
Definition set_file (v : gsd.HOOMDTrajectory F) (r : GSDReader) : GSDReader :=
  {| filename := filename r; _file := v; _frame := _frame r;
     n_atoms := n_atoms r; ts := ts r |}.
Definition set_frame (v : Z) (r : GSDReader) : GSDReader :=
  {| filename := filename r; _file := _file r; _frame := v;
     n_atoms := n_atoms r; ts := ts r |}.
Definition set_n_atoms (v : Z) (r : GSDReader) : GSDReader :=
  {| filename := filename r; _file := _file r; _frame := _frame r;
     n_atoms := v; ts := ts r |}.
Definition set_ts (v : Timestep) (r : GSDReader) : GSDReader :=
  {| filename := filename r; _file := _file r; _frame := _frame r;
     n_atoms := n_atoms r; ts := v |}.
(** An assignment through [self.ts]. *)
Definition upd_ts (f : Timestep → Timestep) (r : GSDReader) : GSDReader :=
  set_ts (f (ts r)) r.

(** [self._file[key]] *)
Definition file_getitem (key : Z) : M GSDReader (gsd.Snapshot F) :=
  λ r, (gsd.getitem (_file r) key, r).

(** The message of the [ValueError] of a particle-count mismatch. *)
Definition mismatch_message (frame n_atoms_now n_atoms : Z) : string :=
  "Frame " +:+ pretty frame +:+ " has " +:+ pretty n_atoms_now
    +:+ " atoms but the initial frame has " +:+ pretty n_atoms
    +:+ " atoms. MDAnalysis in unable to deal with variable topology!".

(** ** The methods of [GSDReader] *)

Definition _read_frame (frame : Z) : M GSDReader Timestep :=
  myframe ← try_except (file_getitem frame)
              (λ e, if is_IndexError e then raise IOError else raise e) ;
  (* set frame number *)
  modify (set_frame frame) ;;
  (* sets the Timestep object *)
  modify (upd_ts (set_ts_frame frame)) ;;
  modify (upd_ts (set_ts_data "step" (gsd.step (gsd.configuration myframe)))) ;;
  (* set frame box dimensions *)
  modify (upd_ts (set_ts_dimensions (gsd.box (gsd.configuration myframe)))) ;;
  d ← gets (λ r, dimensions (ts r)) ;
  modify (upd_ts (set_ts_tilt_factors (take 3 (drop 3 d)))) ;;
  let a1a2 := ((d !!! 3%nat) / np_sqrt (of_int 1 + pow2 (d !!! 3%nat)))%np in
  let a1a3 := ((d !!! 4%nat)
               / np_sqrt (of_int 1 + pow2 (d !!! 4%nat) + pow2 (d !!! 5%nat)))%np in
  let a2a3 := (((d !!! 3%nat) * (d !!! 4%nat) + (d !!! 5%nat))
               / (np_sqrt (of_int 1 + pow2 (d !!! 3%nat))
                  * np_sqrt (of_int 1 + pow2 (d !!! 4%nat) + pow2 (d !!! 5%nat))))%np in
  let a1a2 := (np_arccos a1a2 * lit_180 / np_pi)%np in (* gamma *)
  let a1a3 := (np_arccos a1a3 * lit_180 / np_pi)%np in (* beta *)
  let a2a3 := (np_arccos a2a3 * lit_180 / np_pi)%np in (* alpha *)
  modify (upd_ts (set_ts_dimensions_at 3 a2a3)) ;;
  modify (upd_ts (set_ts_dimensions_at 4 a1a3)) ;;
  modify (upd_ts (set_ts_dimensions_at 5 a1a2)) ;;
  (* set particle positions *)
  let frame_positions := gsd.position (gsd.particles myframe) in
  let n_atoms_now := Z.of_nat (length frame_positions) in
  n ← gets n_atoms ;
  (if bool_decide (n_atoms_now ≠ n)
   then raise (ValueError (mismatch_message frame n_atoms_now n))
   else modify (upd_ts (set_ts_positions frame_positions))) ;;
  modify (upd_ts (set_ts_images (gsd.image (gsd.particles myframe)))) ;;
  modify (upd_ts (set_ts_velocities (gsd.velocity (gsd.particles myframe)))) ;;
  gets ts.

(** read next frame in trajectory *)
Definition _read_next_timestep : M GSDReader Timestep :=
  cur ← gets _frame ;
  _read_frame (cur + 1).

(** number of frames in trajectory *)
Definition n_frames : M GSDReader Z :=
  λ r, (gsd.len (_file r), r).

(** opens the trajectory file using gsd.hoomd module *)
Definition open_trajectory : M (GSDReader * World) unit :=
  on_self (modify (set_frame (-1))) ;;
  path ← on_self (gets filename) ;
  h ← on_world (gsd_hoomd_open path) ;
  on_self (modify (set_file h)).

(** close reader *)
Definition close : M (GSDReader * World) unit :=
  h ← on_self (gets _file) ;
  h' ← on_world (gsd_file_close h) ;
  on_self (modify (set_file h')).

(** reopen trajectory *)
Definition _reopen : M (GSDReader * World) unit :=
  close ;;
  open_trajectory.

(** [__init__] runs on the object Python has just allocated.  None of its
    attributes exists yet; each one is assigned below before anything reads
    it, so what stands in for them here is never observed. *)
Definition blank : GSDReader :=
  {| filename := "";
     _file := {| gsd.name := ""; gsd.frames := []; gsd.is_open := false;
                 gsd.negative_keys := false |};
     _frame := 0; n_atoms := 0; ts := new_Timestep 0 |}.

Definition __init__ (path : string) : M (GSDReader * World) unit :=
  os ← on_world (gets os_name) ;
  if bool_decide (os = "nt")
  then raise (NotImplementedError "GSD format not supported on Windows")
  else
    (* [super().__init__] keeps the name and the options; no file is touched *)
    on_self (modify (set_filename path)) ;;
    open_trajectory ;;
    frame0 ← on_self (file_getitem 0) ;
    on_self (modify (set_n_atoms (gsd.N (gsd.particles frame0)))) ;;
    n ← on_self (gets n_atoms) ;
    on_self (modify (set_ts (new_Timestep n))) ;;
    on_self _read_next_timestep ;;
    mret tt.

(** [GSDReader(path)]: allocate, run [__init__], and hand the object out
    only if [__init__] returns. *)
Definition new_GSDReader (path : string) : M World GSDReader :=
  λ w, match __init__ path (blank, w) with
       | (inl e, (_, w')) => (inl e, w')
       | (inr _, (r, w')) => (inr r, w')
       end.

End Reader.

Arguments World : clear implicits.
Arguments Timestep : clear implicits.
Arguments GSDReader : clear implicits.

(** ** The decode as the format documents it

    The unit-cell angles of a triclinic box with tilt factors [xy], [xz],
    [yz], written from the documented formulas and not from the reader. *)

Section Documented.
Context {F : Type} `{Float F}.

Definition cos_gamma (xy : F) : F :=
  (xy / np_sqrt (of_int 1 + pow2 xy))%np.
Definition cos_beta (xz yz : F) : F :=
  (xz / np_sqrt (of_int 1 + pow2 xz + pow2 yz))%np.
Definition cos_alpha (xy xz yz : F) : F :=
  ((xy * xz + yz)
   / (np_sqrt (of_int 1 + pow2 xy) * np_sqrt (of_int 1 + pow2 xz + pow2 yz)))%np.

Definition degrees (x : F) : F := (x * lit_180 / np_pi)%np.

Definition alpha (b : gsd.Box F) : F :=
  degrees (np_arccos (cos_alpha (gsd.xy b) (gsd.xz b) (gsd.yz b))).
Definition beta (b : gsd.Box F) : F :=
  degrees (np_arccos (cos_beta (gsd.xz b) (gsd.yz b))).
Definition gamma (b : gsd.Box F) : F :=
  degrees (np_arccos (cos_gamma (gsd.xy b))).

(** ** Sequences of reads *)

(** The reader after [k] calls of [_read_next_timestep], whatever each of
    them answered. *)
Fixpoint after_next (k : nat) (r : GSDReader F) : GSDReader F :=
  match k with
  | O => r
  | S k' => snd (_read_next_timestep (after_next k' r))
  end.

(** ** Frames that declare another particle count

    The same trajectory with every frame's declared count [N] replaced by
    what [g] says, arrays untouched. *)

Definition redeclare_frame (g : gsd.Snapshot F → Z) (f : gsd.Snapshot F)
  : gsd.Snapshot F :=
  {| gsd.configuration := gsd.configuration f;
     gsd.particles :=
       {| gsd.N := g f;
          gsd.position := gsd.position (gsd.particles f);
          gsd.velocity := gsd.velocity (gsd.particles f);
          gsd.image := gsd.image (gsd.particles f) |} |}.

Definition redeclare_file (g : gsd.Snapshot F → Z) (h : gsd.HOOMDTrajectory F)
  : gsd.HOOMDTrajectory F :=
  {| gsd.name := gsd.name h; gsd.frames := redeclare_frame g <$> gsd.frames h;
     gsd.is_open := gsd.is_open h; gsd.negative_keys := gsd.negative_keys h |}.

Definition redeclare (g : gsd.Snapshot F → Z) (r : GSDReader F) : GSDReader F :=
  set_file (redeclare_file g (_file r)) r.

End Documented.

(** ** The free interpretation of the arithmetic *)

(** An expression is its own value.  It computes, and two
    results are equal only if the same operations were applied in the same
    order to the same inputs. *)
Inductive sym :=
  | SInt (z : Z)
  | S180
  | SPi
  | SAdd (a b : sym)
  | SMul (a b : sym)
  | SDiv (a b : sym)
  | SPow2 (a : sym)
  | SSqrt (a : sym)
  | SArccos (a : sym).

#[global] Instance sym_Float : Float sym := {|
  of_int := SInt; lit_180 := S180; np_pi := SPi;
  add := SAdd; mul := SMul; div := SDiv; pow2 := SPow2;
  np_sqrt := SSqrt; np_arccos := SArccos
|}.

(** ** A small trajectory to run the reader on *)

Module Sample.

(** Frame number [k]: step [100 * k], a box of edge 10 with tilt factors
    [(1, 0, k)], [npos] particles on the x axis and [declared] as [N]. *)
Definition snapshot (k : Z) (npos : nat) (declared : Z) : gsd.Snapshot sym :=
  {| gsd.configuration :=
       {| gsd.step := 100 * k;
          gsd.box := gsd.mkBox (SInt 10) (SInt 10) (SInt 10)
                               (SInt 1) (SInt 0) (SInt k) |};
     gsd.particles :=
       {| gsd.N := declared;
          gsd.position :=
            (λ j : nat, (SInt (k + Z.of_nat j), SInt 0, SInt 0)) <$> seq 0 npos;
          gsd.velocity := replicate npos (SInt k, SInt 0, SInt 0);
          gsd.image := replicate npos (0, 0, k) |} |}.

(** Three frames of two particles. *)
Definition steady : list (gsd.Snapshot sym) :=
  [snapshot 0 2 2; snapshot 1 2 2; snapshot 2 2 2].

(** The second frame has three particles; the third declares two and has
    two, the fourth declares seven and has two. *)
Definition varying : list (gsd.Snapshot sym) :=
  [snapshot 0 2 2; snapshot 1 3 3; snapshot 2 2 2; snapshot 3 2 7].

Definition world (os : string) : World sym :=
  {| os_name := os;
     disk := <["steady.gsd" := steady]> (<["varying.gsd" := varying]> ∅);
     gsd_negative_keys := true;
     io_log := [] |}.

Definition handle (path : string) (fs : list (gsd.Snapshot sym))
  : gsd.HOOMDTrajectory sym :=
  {| gsd.name := path; gsd.frames := fs; gsd.is_open := true;
     gsd.negative_keys := true |}.

(** A reader of two-particle frames, just opened on [fs]. *)
Definition reader (path : string) (fs : list (gsd.Snapshot sym)) : GSDReader sym :=
  {| filename := path; _file := handle path fs; _frame := -1; n_atoms := 2;
     ts := new_Timestep 2 |}.

End Sample.

(** ** What a read leaves behind

    The timestep once the header of frame [f], found under key [i], is
    decoded, and once its arrays are committed too.  [_read_frame] is
    proved below to produce exactly these. *)

Section Outcomes.
Context {F : Type} `{Float F}.

Definition decoded (i : Z) (f : gsd.Snapshot F) (t : Timestep F) : Timestep F :=
  let b := gsd.box (gsd.configuration f) in
  {| frame := i;
     data := <["step" := gsd.step (gsd.configuration f)]> (data t);
     dimensions := [gsd.Lx b; gsd.Ly b; gsd.Lz b; alpha b; beta b; gamma b];
     tilt_factors := Some [gsd.xy b; gsd.xz b; gsd.yz b];
     positions := positions t;
     velocities := velocities t;
     images := images t |}.

Definition committed (i : Z) (f : gsd.Snapshot F) (t : Timestep F) : Timestep F :=
  let b := gsd.box (gsd.configuration f) in
  {| frame := i;
     data := <["step" := gsd.step (gsd.configuration f)]> (data t);
     dimensions := [gsd.Lx b; gsd.Ly b; gsd.Lz b; alpha b; beta b; gamma b];
     tilt_factors := Some [gsd.xy b; gsd.xz b; gsd.yz b];
     positions := gsd.position (gsd.particles f);
     velocities := Some (gsd.velocity (gsd.particles f));
     images := Some (gsd.image (gsd.particles f)) |}.

(** The particle count a read checks: the first dimension of the position
    array. *)
Definition n_atoms_in (f : gsd.Snapshot F) : Z :=
  Z.of_nat (length (gsd.position (gsd.particles f))).

End Outcomes.

Module SampleRuns.

(** What the constructor is expected to hand out on ["steady.gsd"], and
    the world it leaves. *)
Definition constructed : GSDReader sym :=
  {| filename := "steady.gsd";
     _file := Sample.handle "steady.gsd" Sample.steady;
     _frame := 0; n_atoms := 2;
     ts := committed 0 (Sample.snapshot 0 2 2) (new_Timestep 2) |}.

Definition opened (os : string) : World sym :=
  log_io (EvOpen "steady.gsd") (Sample.world os).

(** Readers just opened on the two trajectories, and one in the middle of
    the first. *)
Definition steady : GSDReader sym := Sample.reader "steady.gsd" Sample.steady.
Definition varying : GSDReader sym := Sample.reader "varying.gsd" Sample.varying.
Definition midway : GSDReader sym := after_next 2 steady.

End SampleRuns.

Module SampleEdge.

(** A disk that also holds a container without frames and one whose first
    frame declares five particles and has two. *)
Definition world : World sym :=
  {| os_name := "posix";
     disk := <["empty.gsd" := []]>
               (<["misdeclared.gsd" := [Sample.snapshot 0 2 5]]>
                  (<["steady.gsd" := Sample.steady]> ∅));
     gsd_negative_keys := true;
     io_log := [] |}.

(** The reader of [SampleRuns.steady] once closed. *)
Definition closed : GSDReader sym :=
  set_file (gsd.file_close (_file SampleRuns.steady)) SampleRuns.steady.

End SampleEdge.

Module SampleSpec.

(** Six frames: frames 0 to 4 have 100 particles, frame 5 has 99. *)
Definition frames : list (gsd.Snapshot sym) :=
  [Sample.snapshot 0 100 100; Sample.snapshot 1 100 100;
   Sample.snapshot 2 100 100; Sample.snapshot 3 100 100;
   Sample.snapshot 4 100 100; Sample.snapshot 5 99 99].

(** A reader on them whose reference is frame 0's count and whose last read
    was frame 4. *)
Definition reader : GSDReader sym :=
  {| filename := "spec.gsd"; _file := Sample.handle "spec.gsd" frames;
     _frame := 4; n_atoms := gsd.N (gsd.particles (Sample.snapshot 0 100 100));
     ts := committed 4 (Sample.snapshot 4 100 100) (new_Timestep 100) |}.

End SampleSpec.

(** ** Reading numbers back out of a message

    A decimal numeral has no space in it, which is what lets the numbers of
    a message be told apart from the words around them. *)
Fixpoint has_space (s : string) : bool :=
  match s with
  | EmptyString => false
  | String c s' => Ascii.eqb c " " || has_space s'
  end.

Ltac run_method :=
  unfold _read_next_timestep, _read_frame, file_getitem, n_frames,
    open_trajectory, close, _reopen, gsd_hoomd_open, gsd_file_close,
    try_except, on_self, on_world, raise, gets, modify,
    mbind, M_bind, mret, M_ret;
  cbn.

(** * Properties *)

Section Facts.
Context {F : Type} `{Float F}.
Implicit Types (r : GSDReader F) (f : gsd.Snapshot F) (t : Timestep F).
Implicit Types (h : gsd.HOOMDTrajectory F) (w : World F) (i : Z).

(** ** The container *)

Lemma getitem_nat h (k : nat) f :
  gsd.is_open h = true → gsd.frames h !! k = Some f →
  gsd.getitem h (Z.of_nat k) = inr f.
Proof.
  intros Hopen Hk. unfold gsd.getitem, gsd.len, gsd.nframes. rewrite Hopen.
  pose proof (lookup_lt_Some _ _ _ Hk) as Hlt.
  assert ((Z.of_nat k <? 0) = false) as Hlo by (apply Z.ltb_ge; lia).
  assert ((Z.of_nat (length (gsd.frames h)) <=? Z.of_nat k) = false) as Hhi
    by (apply Z.leb_gt; lia).
  rewrite Hlo, andb_false_r. cbn zeta iota.
  rewrite Hlo, Hhi. cbn [orb]. by rewrite Nat2Z.id, Hk.
Qed.

Lemma getitem_in_range h i :
  gsd.is_open h = true → 0 ≤ i < gsd.nframes h →
  ∃ f, gsd.frames h !! Z.to_nat i = Some f ∧ gsd.getitem h i = inr f.
Proof.
  intros Hopen [Hlo Hhi]. unfold gsd.nframes in Hhi.
  destruct (lookup_lt_is_Some_2 (gsd.frames h) (Z.to_nat i)) as [f Hf]; [lia|].
  exists f. split; [exact Hf|].
  rewrite <- (Z2Nat.id i) by exact Hlo. by apply getitem_nat.
Qed.

Lemma getitem_out_of_range h i :
  gsd.is_open h = true →
  gsd.nframes h ≤ i ∨ i < - gsd.nframes h
    ∨ (gsd.negative_keys h = false ∧ i < 0) →
  gsd.getitem h i = inl IndexError.
Proof.
  intros Hopen Hout. unfold gsd.getitem, gsd.len. rewrite Hopen.
  assert (0 ≤ gsd.nframes h) as Hn by (unfold gsd.nframes; lia).
  destruct (gsd.negative_keys h) eqn:Hneg; cbn [andb].
  - destruct (Z.ltb_spec i 0) as [Hi|Hi].
    + assert ((i + gsd.nframes h <? 0) = true) as ->
        by (apply Z.ltb_lt; destruct Hout as [?|[?|[? _]]]; [lia|lia|done]).
      by rewrite orb_true_r.
    + assert ((gsd.nframes h <=? i) = true) as ->
        by (apply Z.leb_le; destruct Hout as [?|[?|[? _]]]; [lia|lia|done]).
      done.
  - destruct (Z.leb_spec (gsd.nframes h) i) as [Hi|Hi]; [done|].
    assert ((i <? 0) = true) as -> by (apply Z.ltb_lt; lia).
    done.
Qed.

(** ** One read, step by step *)

(** The container raised: only [IndexError] is translated, and nothing has
    been assigned. *)
Lemma read_frame_raised r i e :
  gsd.getitem (_file r) i = inl e →
  _read_frame i r = (inl (if is_IndexError e then IOError else e), r).
Proof.
  intros Hget. run_method. rewrite Hget. by destruct e.
Qed.

(** The container answered [f]: the header is decoded, then the count is
    checked, then the arrays are committed. *)
Lemma read_frame_found r i f :
  gsd.getitem (_file r) i = inr f →
  _read_frame i r =
    if bool_decide (n_atoms_in f ≠ n_atoms r)
    then (inl (ValueError (mismatch_message i (n_atoms_in f) (n_atoms r))),
          set_ts (decoded i f (ts r)) (set_frame i r))
    else (inr (committed i f (ts r)),
          set_ts (committed i f (ts r)) (set_frame i r)).
Proof.
  intros Hget. run_method. rewrite Hget. cbn.
  unfold n_atoms_in. case_bool_decide; reflexivity.
Qed.

(** ** The box decode *)

(** C1. Whenever the container answers a frame, the read leaves in
    [dimensions] the three edge lengths followed by [alpha], [beta], [gamma]
    in that order, each the documented cosine of the frame's raw tilt factors
    taken through [arccos] and turned into degrees.  This holds whether or
    not the particle count is then accepted. *)
Theorem box_angles_in_order r i f :
  gsd.getitem (_file r) i = inr f →
  let b := gsd.box (gsd.configuration f) in
  let r' := snd (_read_frame i r) in
  dimensions (ts r') = [gsd.Lx b; gsd.Ly b; gsd.Lz b; alpha b; beta b; gamma b]
  ∧ dimensions (ts r') !! 3%nat
      = Some (degrees (np_arccos (cos_alpha (gsd.xy b) (gsd.xz b) (gsd.yz b))))
  ∧ dimensions (ts r') !! 4%nat
      = Some (degrees (np_arccos (cos_beta (gsd.xz b) (gsd.yz b))))
  ∧ dimensions (ts r') !! 5%nat
      = Some (degrees (np_arccos (cos_gamma (gsd.xy b)))).
Proof.
  intros Hget b r'. subst r'. rewrite (read_frame_found _ _ _ Hget).
  case_bool_decide; cbn; auto.
Qed.

(** C4. Whenever the container answers a frame, the read leaves in
    [tilt_factors] the frame's raw [xy], [xz], [yz], the last three
    components of its box descriptor as stored. *)
Theorem tilt_factors_are_raw r i f :
  gsd.getitem (_file r) i = inr f →
  let b := gsd.box (gsd.configuration f) in
  tilt_factors (ts (snd (_read_frame i r))) = Some [gsd.xy b; gsd.xz b; gsd.yz b].
Proof.
  intros Hget b. rewrite (read_frame_found _ _ _ Hget).
  by case_bool_decide.
Qed.

(** ** The particle-count check *)

Lemma pretty_N_go_no_space (x : N) (s : string) :
  has_space s = false → has_space (pretty_N_go x s) = false.
Proof.
  revert s. induction (N.lt_wf_0 x) as [x _ IH]. intros s Hs.
  destruct (decide (x = 0%N)) as [->|Hx]; [by rewrite pretty_N_go_0|].
  rewrite pretty_N_go_step by lia. apply IH; [apply N.div_lt; lia|].
  cbn. rewrite Hs, orb_false_r.
  unfold pretty_N_char. by repeat case_match.
Qed.

Lemma pretty_Z_no_space (z : Z) : has_space (pretty z) = false.
Proof.
  assert (∀ p : positive, has_space (pretty p) = false) as Hpos.
  { intros p. unfold pretty, pretty_positive, pretty, pretty_N.
    case_decide; [done|]. by apply pretty_N_go_no_space. }
  destruct z as [|p|p]; [done|apply Hpos|].
  unfold pretty, pretty_Z. cbn. apply Hpos.
Qed.

(** Two texts that agree, each a spaceless word followed by a space, agree
    on the word and on what follows the space. *)
Lemma split_at_space (a a' b b' : string) :
  has_space a = false → has_space a' = false →
  a +:+ String " " b = a' +:+ String " " b' → a = a' ∧ b = b'.
Proof.
  revert a'. induction a as [|c a IH]; intros [|c' a']; cbn.
  - by intros _ _ [= ->].
  - intros _ Hc [= <- _]. done.
  - intros Hc _ [= -> _]. done.
  - intros [_ Ha]%orb_false_elim [_ Ha']%orb_false_elim [= -> Heq].
    destruct (IH a' Ha Ha' Heq) as [-> ->]. done.
Qed.

(** The text of the mismatch error gives back the three numbers it was
    written from. *)
Lemma mismatch_text_inj (i n e i' n' e' : Z) :
  "Frame " +:+ pretty i +:+ " has " +:+ pretty n
    +:+ " atoms but the initial frame has " +:+ pretty e
    +:+ " atoms. MDAnalysis in unable to deal with variable topology!"
  = "Frame " +:+ pretty i' +:+ " has " +:+ pretty n'
    +:+ " atoms but the initial frame has " +:+ pretty e'
    +:+ " atoms. MDAnalysis in unable to deal with variable topology!" →
  i = i' ∧ n = n' ∧ e = e'.
Proof.
  intros Heq. simpl in Heq.
  repeat injection Heq as Heq.
  apply split_at_space in Heq as [Hi Heq]; [|apply pretty_Z_no_space..].
  repeat injection Heq as Heq.
  apply split_at_space in Heq as [Hn Heq]; [|apply pretty_Z_no_space..].
  repeat injection Heq as Heq.
  apply split_at_space in Heq as [He _]; [|apply pretty_Z_no_space..].
  by apply (inj pretty) in Hi, Hn, He.
Qed.

(** C2. If the frame found under [i] has a particle count other than the
    reader's reference count, the read raises a [ValueError] whose message
    reads, in decimal, the frame index [i], then the count found, then the
    count expected, in the words of the source; the three numbers can be
    read back from the message, so no other triple gives it; and the
    timestep's positions, velocities and images are what they were. *)
Theorem count_mismatch_raises r i f :
  gsd.getitem (_file r) i = inr f →
  n_atoms_in f ≠ n_atoms r →
  ∃ r' msg, _read_frame i r = (inl (ValueError msg), r')
    ∧ msg = "Frame " +:+ pretty i +:+ " has " +:+ pretty (n_atoms_in f)
            +:+ " atoms but the initial frame has " +:+ pretty (n_atoms r)
            +:+ " atoms. MDAnalysis in unable to deal with variable topology!"
    ∧ (∀ i' n' e' : Z,
         msg = "Frame " +:+ pretty i' +:+ " has " +:+ pretty n'
               +:+ " atoms but the initial frame has " +:+ pretty e'
               +:+ " atoms. MDAnalysis in unable to deal with variable topology!" →
         i' = i ∧ n' = n_atoms_in f ∧ e' = n_atoms r)
    ∧ positions (ts r') = positions (ts r)
    ∧ velocities (ts r') = velocities (ts r)
    ∧ images (ts r') = images (ts r).
Proof.
  intros Hget Hne. rewrite (read_frame_found _ _ _ Hget).
  rewrite bool_decide_true by exact Hne.
  eexists _, _. split; [reflexivity|]. split; [reflexivity|].
  split; [|done].
  intros i' n' e' Heq. unfold mismatch_message in Heq.
  destruct (mismatch_text_inj _ _ _ _ _ _ Heq) as (-> & -> & ->). done.
Qed.

(** C9. After such a failed read the cursor, the timestep's frame number,
    its step, its box dimensions (angles included) and its tilt factors are
    those of frame [i]; its positions, velocities and images are not. *)
Theorem count_mismatch_keeps_header r i f :
  gsd.getitem (_file r) i = inr f →
  n_atoms_in f ≠ n_atoms r →
  let b := gsd.box (gsd.configuration f) in
  let r' := snd (_read_frame i r) in
  (∃ msg, fst (_read_frame i r) = inl (ValueError msg))
  ∧ _frame r' = i
  ∧ frame (ts r') = i
  ∧ data (ts r') !! "step" = Some (gsd.step (gsd.configuration f))
  ∧ dimensions (ts r') = [gsd.Lx b; gsd.Ly b; gsd.Lz b; alpha b; beta b; gamma b]
  ∧ tilt_factors (ts r') = Some [gsd.xy b; gsd.xz b; gsd.yz b]
  ∧ positions (ts r') = positions (ts r)
  ∧ velocities (ts r') = velocities (ts r)
  ∧ images (ts r') = images (ts r).
Proof.
  intros Hget Hne b r'. subst r'. rewrite (read_frame_found _ _ _ Hget).
  rewrite bool_decide_true by exact Hne. cbn.
  split; [eauto|]. repeat split. apply lookup_insert_eq.
Qed.

(** ** Keys outside the container *)

Lemma read_frame_past_end r i :
  gsd.is_open (_file r) = true →
  gsd.nframes (_file r) ≤ i →
  _read_frame i r = (inl IOError, r).
Proof.
  intros Hopen Hout.
  rewrite (read_frame_raised r i IndexError); [done|].
  apply getitem_out_of_range; auto.
Qed.

(** C3. When the container raises [IndexError] the read raises [IOError]
    instead and assigns nothing; on an open container this is the case for
    every key at or above the number of frames, every key below its
    negation, and every negative key if the container takes none. *)
Theorem out_of_range_raises_IOError r i :
  (gsd.getitem (_file r) i = inl IndexError →
   _read_frame i r = (inl IOError, r))
  ∧ (gsd.is_open (_file r) = true →
     gsd.nframes (_file r) ≤ i ∨ i < - gsd.nframes (_file r)
       ∨ (gsd.negative_keys (_file r) = false ∧ i < 0) →
     _read_frame i r = (inl IOError, r)).
Proof.
  assert (gsd.getitem (_file r) i = inl IndexError →
          _read_frame i r = (inl IOError, r)) as Htr
    by (intros Hget; by rewrite (read_frame_raised _ _ _ Hget)).
  split; [exact Htr|].
  intros Hopen Hout. apply Htr. by apply getitem_out_of_range.
Qed.

(** ** The frame number *)

(** C6. On an open container and for [0 ≤ i < n_frames], a read that
    returns has set the cursor and the timestep's frame number to [i] and
    returns that timestep; and the read does return when the frame's
    particle count is the reference count. *)
Theorem read_frame_sets_index r i :
  gsd.is_open (_file r) = true →
  0 ≤ i < gsd.nframes (_file r) →
  (∀ t r', _read_frame i r = (inr t, r') →
     _frame r' = i ∧ frame (ts r') = i ∧ t = ts r' ∧ frame t = i)
  ∧ (∀ f, gsd.frames (_file r) !! Z.to_nat i = Some f →
     n_atoms_in f = n_atoms r →
     ∃ t r', _read_frame i r = (inr t, r')).
Proof.
  intros Hopen Hi.
  destruct (getitem_in_range _ _ Hopen Hi) as (f & Hf & Hget).
  rewrite (read_frame_found _ _ _ Hget). split.
  - intros t r'. case_bool_decide; [discriminate|].
    intros [= <- <-]. done.
  - intros f' Hf' Hn. assert (f' = f) as -> by congruence.
    rewrite bool_decide_false by (intros Hne; by apply Hne). eauto.
Qed.

(** ** Sequential reads *)

Lemma next_is_read_frame r :
  _read_next_timestep r = _read_frame (_frame r + 1) r.
Proof. reflexivity. Qed.

(** A read never replaces the container or the reference count. *)
Lemma read_frame_keeps r i :
  _file (snd (_read_frame i r)) = _file r
  ∧ n_atoms (snd (_read_frame i r)) = n_atoms r.
Proof.
  destruct (gsd.getitem (_file r) i) as [e|f] eqn:Hget.
  - by rewrite (read_frame_raised _ _ _ Hget).
  - rewrite (read_frame_found _ _ _ Hget). by case_bool_decide.
Qed.

(** A read that found its frame has moved the cursor, accepted or not. *)
Lemma read_frame_cursor r i f :
  gsd.getitem (_file r) i = inr f → _frame (snd (_read_frame i r)) = i.
Proof.
  intros Hget. rewrite (read_frame_found _ _ _ Hget). by case_bool_decide.
Qed.

Lemma after_next_keeps (k : nat) r :
  _file (after_next k r) = _file r ∧ n_atoms (after_next k r) = n_atoms r.
Proof.
  induction k as [|k [IHf IHn]]; [done|]. cbn [after_next].
  rewrite next_is_read_frame.
  destruct (read_frame_keeps (after_next k r) (_frame (after_next k r) + 1))
    as [-> ->]. done.
Qed.

Lemma after_next_cursor r (k : nat) :
  _frame r = -1 → gsd.is_open (_file r) = true →
  (k ≤ length (gsd.frames (_file r)))%nat →
  _frame (after_next k r) = Z.of_nat k - 1.
Proof.
  intros Hstart Hopen. induction k as [|k IH]; intros Hk; [by cbn|].
  cbn [after_next]. rewrite next_is_read_frame, IH by lia.
  destruct (lookup_lt_is_Some_2 (gsd.frames (_file r)) k) as [f Hf]; [lia|].
  replace (Z.of_nat k - 1 + 1) with (Z.of_nat k) by lia.
  rewrite (read_frame_cursor _ _ f); [lia|].
  destruct (after_next_keeps k r) as [-> _]. by apply getitem_nat.
Qed.

(** C5. [_read_next_timestep] is [_read_frame] at the cursor plus one.
    Hence, from a reader just opened (cursor [-1]), call number [k]
    (counting from 0, for every frame [k] of the container) is the read of
    frame [k], leaves the cursor at [k], and returns frame [k]'s timestep
    when that frame has the reference particle count; after as many calls
    as there are frames the next call raises [IOError] and changes
    nothing. *)
Theorem sequential_reads :
  (∀ r, _read_next_timestep r = _read_frame (_frame r + 1) r)
  ∧ ∀ r, _frame r = -1 → gsd.is_open (_file r) = true →
      (∀ (k : nat) f, gsd.frames (_file r) !! k = Some f →
         let rk := after_next k r in
         _read_next_timestep rk = _read_frame (Z.of_nat k) rk
         ∧ _frame (after_next (S k) r) = Z.of_nat k
         ∧ (n_atoms_in f = n_atoms r →
            fst (_read_next_timestep rk)
              = inr (committed (Z.of_nat k) f (ts rk))))
      ∧ (let n := length (gsd.frames (_file r)) in
         _read_next_timestep (after_next n r) = (inl IOError, after_next n r)).
Proof.
  split; [exact next_is_read_frame|].
  intros r Hstart Hopen. split.
  - intros k f Hf rk. subst rk.
    pose proof (lookup_lt_Some _ _ _ Hf) as Hk.
    assert (_frame (after_next k r) + 1 = Z.of_nat k) as Hcur
      by (rewrite after_next_cursor by (done || lia); lia).
    destruct (after_next_keeps k r) as [Hfile Hn].
    assert (gsd.getitem (_file (after_next k r)) (Z.of_nat k) = inr f) as Hget
      by (rewrite Hfile; by apply getitem_nat).
    split; [by rewrite next_is_read_frame, Hcur|]. split.
    + cbn [after_next]. rewrite next_is_read_frame, Hcur.
      by apply read_frame_cursor with f.
    + intros Hcount. rewrite next_is_read_frame, Hcur.
      rewrite (read_frame_found _ _ _ Hget), Hn.
      by rewrite bool_decide_false by (intros Hne; by apply Hne).
  - intros n. subst n. rewrite next_is_read_frame.
    rewrite after_next_cursor by (done || lia).
    destruct (after_next_keeps (length (gsd.frames (_file r))) r) as [Hfile _].
    apply read_frame_past_end.
    + by rewrite Hfile.
    + rewrite Hfile. unfold gsd.nframes. lia.
Qed.

(** ** Opening, closing, constructing *)

(** What [open_trajectory] does, by whether the path holds a container. *)
Lemma open_trajectory_outcome r w :
  open_trajectory (r, w) =
    match disk w !! filename r with
    | None =>
      (inl IOError, (set_frame (-1) r, log_io (EvOpen (filename r)) w))
    | Some fs =>
      (inr tt,
       (set_file {| gsd.name := filename r; gsd.frames := fs;
                    gsd.is_open := true;
                    gsd.negative_keys := gsd_negative_keys w |}
                 (set_frame (-1) r),
        log_io (EvOpen (filename r)) w))
    end.
Proof. run_method. by destruct (disk w !! filename r). Qed.

Lemma close_outcome r w :
  close (r, w) =
    (inr tt, (set_file (gsd.file_close (_file r)) r,
              if gsd.is_open (_file r)
              then log_io (EvClose (gsd.name (_file r))) w else w)).
Proof. run_method. by destruct (gsd.is_open (_file r)). Qed.

(** C7. Whatever the cursor was, after [_reopen] it is [-1], whether or not
    the file could be opened again, so the next [_read_next_timestep] is
    the read of key 0; and when the path still holds a container of first
    frame [f0], the reopen returns, key 0 answers [f0], and the next read
    returns the timestep of [f0] if [f0] has the reference particle
    count. *)
Theorem reopen_resets_cursor r w :
  let r' := fst (snd (_reopen (r, w))) in
  _frame r' = -1
  ∧ _read_next_timestep r' = _read_frame 0 r'
  ∧ (∀ f0 fs, disk w !! filename r = Some (f0 :: fs) →
       fst (_reopen (r, w)) = inr tt
       ∧ gsd.getitem (_file r') 0 = inr f0
       ∧ (n_atoms_in f0 = n_atoms r →
          fst (_read_next_timestep r') = inr (committed 0 f0 (ts r)))).
Proof.
  intros r'. subst r'. unfold _reopen, mbind, M_bind.
  rewrite close_outcome, open_trajectory_outcome. cbn [filename set_file].
  assert (∀ w0 : World F, disk (if gsd.is_open (_file r)
                     then log_io (EvClose (gsd.name (_file r))) w0 else w0)
          = disk w0) as Hdisk by (intros w0; by destruct (gsd.is_open _)).
  rewrite Hdisk.
  destruct (disk w !! filename r) as [fs|] eqn:Hfs; cbn [fst snd].
  - split; [done|]. split; [reflexivity|].
    intros f0 fs' [= ->]. split; [done|].
    match goal with |- gsd.getitem (_file ?R) 0 = _ ∧ _ => set (r1 := R) end.
    assert (gsd.getitem (_file r1) 0 = inr f0) as Hget
      by (by apply (getitem_nat _ 0%nat)).
    split; [exact Hget|]. intros Hcount.
    rewrite next_is_read_frame.
    change (_frame r1 + 1) with 0.
    rewrite (read_frame_found _ _ _ Hget).
    change (n_atoms r1) with (n_atoms r). change (ts r1) with (ts r).
    by rewrite bool_decide_false by (intros Hne; by apply Hne).
  - split; [done|]. split; [reflexivity|]. intros ? ? [=].
Qed.

(** C8. On the platform [os.name == 'nt'] the constructor raises
    [NotImplementedError] and leaves the world as it found it: no file has
    been opened or closed. *)
Theorem windows_guard path w :
  os_name w = "nt" →
  new_GSDReader path w
    = (inl (NotImplementedError "GSD format not supported on Windows"), w)
  ∧ io_log (snd (new_GSDReader path w)) = io_log w.
Proof.
  intros Hos.
  assert (new_GSDReader path w
    = (inl (NotImplementedError "GSD format not supported on Windows"), w)) as ->.
  { unfold new_GSDReader, __init__, on_world, gets, raise, mbind, M_bind.
    cbn. by rewrite Hos. }
  done.
Qed.

(** A constructor that returns has opened the path, found a first frame,
    taken its declared count as the reference and read it. *)
Lemma new_GSDReader_returns path w r w' :
  new_GSDReader path w = (inr r, w') →
  ∃ f0 fs, disk w !! path = Some (f0 :: fs)
    ∧ n_atoms r = gsd.N (gsd.particles f0)
    ∧ n_atoms_in f0 = gsd.N (gsd.particles f0)
    ∧ _frame r = 0
    ∧ w' = log_io (EvOpen path) w.
Proof.
  unfold new_GSDReader, __init__.
  unfold mbind at 1, M_bind at 1, on_world at 1, gets at 1. cbn [fst snd].
  case_bool_decide; [by cbn|].
  unfold mbind at 1, M_bind at 1, on_self at 1, modify at 1.
  unfold mbind at 1, M_bind at 1. 
  rewrite open_trajectory_outcome. cbn [filename set_filename blank].
  destruct (disk w !! path) as [[|f0 fs]|]; [| |by cbn];
    unfold mbind, M_bind, on_self, file_getitem, modify, gets, mret, M_ret;
    cbn [_file set_file set_frame set_filename].
  { rewrite (getitem_out_of_range _ 0)
      by (try done; left; unfold gsd.nframes; cbn; lia).
    by cbn. }
  rewrite (getitem_nat _ 0%nat f0) by done.
  rewrite next_is_read_frame.
  cbn [_frame n_atoms set_ts set_n_atoms set_file set_frame Z.add].
  change (-1 + 1) with 0.
  match goal with |- context [_read_frame 0 ?R] => set (r0 := R) end.
  assert (gsd.getitem (_file r0) 0 = inr f0) as Hget
    by (by apply (getitem_nat _ 0%nat)).
  rewrite (read_frame_found _ _ _ Hget).
  change (n_atoms r0) with (gsd.N (gsd.particles f0)).
  case_bool_decide as Hcount; [by cbn|].
  intros [= <- <-]. exists f0, fs. cbn.
  repeat split. destruct (decide (n_atoms_in f0 = gsd.N (gsd.particles f0))); done.
Qed.

(** For the container, redeclaring the counts changes the frames it answers
    and nothing else. *)
Lemma getitem_redeclare (g : gsd.Snapshot F → Z) h i :
  gsd.getitem (redeclare_file g h) i =
    match gsd.getitem h i with
    | inl e => inl e
    | inr f => inr (redeclare_frame g f)
    end.
Proof.
  unfold gsd.getitem, gsd.len, gsd.nframes, redeclare_file. cbn.
  destruct (gsd.is_open h); [|done].
  rewrite length_fmap. case_match; [done|].
  rewrite list_lookup_fmap. by destruct (gsd.frames h !! _).
Qed.

(** C10. A constructor that returns has taken the reference count from
    frame 0's declared count [N].  A read, for its part, returns exactly
    when the length of the frame's position array is the reference count,
    and replacing the declared counts of the frames by anything at all
    changes neither what a read answers nor the reader it leaves. *)
Theorem count_checked_is_array_length :
  (∀ path w r w', new_GSDReader path w = (inr r, w') →
     ∃ f0 fs, disk w !! path = Some (f0 :: fs)
       ∧ n_atoms r = gsd.N (gsd.particles f0))
  ∧ (∀ r i f, gsd.getitem (_file r) i = inr f →
       (∃ t, fst (_read_frame i r) = inr t)
       ↔ Z.of_nat (length (gsd.position (gsd.particles f))) = n_atoms r)
  ∧ (∀ (g : gsd.Snapshot F → Z) r i,
       fst (_read_frame i (redeclare g r)) = fst (_read_frame i r)
       ∧ snd (_read_frame i (redeclare g r)) = redeclare g (snd (_read_frame i r))).
Proof.
  split; [|split].
  - intros path w r w' Hnew.
    destruct (new_GSDReader_returns _ _ _ _ Hnew) as (f0 & fs & ? & ? & _).
    eauto.
  - intros r i f Hget. rewrite (read_frame_found _ _ _ Hget).
    fold (n_atoms_in f). case_bool_decide as Hc; cbn.
    + split; [intros [t [=]]|done].
    + split; [|eauto]. intros _.
      destruct (decide (n_atoms_in f = n_atoms r)); done.
  - intros g r i.
    pose proof (getitem_redeclare g (_file r) i) as Hg.
    destruct (gsd.getitem (_file r) i) as [e|f] eqn:Hget; cbn in Hg.
    + rewrite (read_frame_raised (redeclare g r) i e) by exact Hg.
      by rewrite (read_frame_raised r i e) by exact Hget.
    + rewrite (read_frame_found (redeclare g r) i (redeclare_frame g f))
        by exact Hg.
      rewrite (read_frame_found r i f) by exact Hget.
      change (n_atoms_in (redeclare_frame g f)) with (n_atoms_in f).
      change (n_atoms (redeclare g r)) with (n_atoms r).
      by case_bool_decide.
Qed.

End Facts.

(** * Runs on the sample trajectory *)

Section Runs.
Import SampleRuns.

Example mismatch_message_5_99_100 :
  mismatch_message 5 99 100
  = "Frame 5 has 99 atoms but the initial frame has 100 atoms. MDAnalysis in unable to deal with variable topology!".
Proof. reflexivity. Qed.

Lemma box_angles_in_order_witness :
  gsd.getitem (_file steady) 1 = inr (Sample.snapshot 1 2 2)
  ∧ dimensions (ts (snd (_read_frame 1 steady))) !! 3%nat
    = Some (degrees (np_arccos (cos_alpha (SInt 1) (SInt 0) (SInt 1))))
  ∧ dimensions (ts (snd (_read_frame 1 steady))) !! 5%nat
    = Some (degrees (np_arccos (cos_gamma (SInt 1)))).
Proof.
  split; [reflexivity|].
  destruct (box_angles_in_order steady 1 (Sample.snapshot 1 2 2) eq_refl)
    as (_ & Ha & _ & Hg).
  split; [exact Ha | exact Hg].
Defined.

Lemma tilt_factors_are_raw_witness :
  gsd.getitem (_file steady) 2 = inr (Sample.snapshot 2 2 2)
  ∧ tilt_factors (ts (snd (_read_frame 2 steady)))
    = Some [SInt 1; SInt 0; SInt 2].
Proof.
  split; [reflexivity|].
  exact (tilt_factors_are_raw steady 2 (Sample.snapshot 2 2 2) eq_refl).
Defined.

Lemma count_mismatch_raises_witness :
  gsd.getitem (_file SampleSpec.reader) 5 = inr (Sample.snapshot 5 99 99)
  ∧ n_atoms_in (Sample.snapshot 5 99 99) ≠ n_atoms SampleSpec.reader
  ∧ ∃ r' msg, _read_frame 5 SampleSpec.reader = (inl (ValueError msg), r')
      ∧ msg = "Frame 5 has 99 atoms but the initial frame has 100 atoms. MDAnalysis in unable to deal with variable topology!"
      ∧ positions (ts r') = gsd.position (gsd.particles (Sample.snapshot 4 100 100))
      ∧ velocities (ts r') = Some (gsd.velocity (gsd.particles (Sample.snapshot 4 100 100)))
      ∧ images (ts r') = Some (gsd.image (gsd.particles (Sample.snapshot 4 100 100))).
Proof.
  assert (n_atoms_in (Sample.snapshot 5 99 99) ≠ n_atoms SampleSpec.reader)
    as Hne by discriminate.
  split; [reflexivity|]. split; [exact Hne|].
  destruct (count_mismatch_raises SampleSpec.reader 5 (Sample.snapshot 5 99 99)
              eq_refl Hne) as (r' & msg & Hrun & Hmsg & _ & Hp & Hv & Him).
  exists r', msg. split; [exact Hrun|].
  split; [exact Hmsg|]. split; [exact Hp|]. split; [exact Hv | exact Him].
Defined.

Lemma count_mismatch_keeps_header_witness :
  gsd.getitem (_file varying) 1 = inr (Sample.snapshot 1 3 3)
  ∧ n_atoms_in (Sample.snapshot 1 3 3) ≠ n_atoms varying
  ∧ _frame (snd (_read_frame 1 varying)) = 1
  ∧ frame (ts (snd (_read_frame 1 varying))) = 1
  ∧ data (ts (snd (_read_frame 1 varying))) !! "step" = Some 100
  ∧ tilt_factors (ts (snd (_read_frame 1 varying)))
    = Some [SInt 1; SInt 0; SInt 1]
  ∧ positions (ts (snd (_read_frame 1 varying))) = positions (ts varying).
Proof.
  split; [reflexivity|]. split; [discriminate|].
  destruct (count_mismatch_keeps_header varying 1 (Sample.snapshot 1 3 3))
    as (_ & Hc & Hf & Hs & _ & Ht & Hp & _); [reflexivity | discriminate |].
  repeat split; assumption.
Defined.

Lemma out_of_range_raises_IOError_witness :
  gsd.getitem (_file steady) 3 = inl IndexError
  ∧ _read_frame 3 steady = (inl IOError, steady)
  ∧ gsd.is_open (_file steady) = true
  ∧ -4 < - gsd.nframes (_file steady)
  ∧ _read_frame (-4) steady = (inl IOError, steady).
Proof.
  split; [reflexivity|]. split.
  - apply (proj1 (out_of_range_raises_IOError steady 3)). reflexivity.
  - split; [reflexivity|]. split; [reflexivity|].
    apply (proj2 (out_of_range_raises_IOError steady (-4))); [reflexivity|].
    right. left. reflexivity.
Defined.

Lemma read_frame_sets_index_witness :
  gsd.is_open (_file steady) = true
  ∧ 0 ≤ 1 < gsd.nframes (_file steady)
  ∧ gsd.frames (_file steady) !! Z.to_nat 1 = Some (Sample.snapshot 1 2 2)
  ∧ n_atoms_in (Sample.snapshot 1 2 2) = n_atoms steady
  ∧ (∃ t r', _read_frame 1 steady = (inr t, r'))
  ∧ _frame (snd (_read_frame 1 steady)) = 1
  ∧ frame (ts (snd (_read_frame 1 steady))) = 1.
Proof.
  assert (0 ≤ 1 < gsd.nframes (_file steady)) as Hin
    by (split; [intros Hgt; discriminate Hgt | reflexivity]).
  destruct (read_frame_sets_index steady 1 eq_refl Hin) as [Hset Hret].
  split; [reflexivity|]. split; [exact Hin|]. split; [reflexivity|].
  split; [reflexivity|].
  split; [exact (Hret (Sample.snapshot 1 2 2) eq_refl eq_refl)|].
  destruct (Hset (committed 1 (Sample.snapshot 1 2 2) (ts steady))
                 (snd (_read_frame 1 steady)) eq_refl) as (Hc & Hf & _).
  split; [exact Hc | exact Hf].
Defined.

Lemma sequential_reads_witness :
  _frame steady = -1
  ∧ gsd.is_open (_file steady) = true
  ∧ gsd.frames (_file steady) !! 1%nat = Some (Sample.snapshot 1 2 2)
  ∧ n_atoms_in (Sample.snapshot 1 2 2) = n_atoms steady
  ∧ _read_next_timestep (after_next 1 steady) = _read_frame 1 (after_next 1 steady)
  ∧ _frame (after_next 2 steady) = 1
  ∧ fst (_read_next_timestep (after_next 1 steady))
    = inr (committed 1 (Sample.snapshot 1 2 2) (ts (after_next 1 steady)))
  ∧ _read_next_timestep (after_next 3 steady) = (inl IOError, after_next 3 steady).
Proof.
  destruct (proj2 sequential_reads steady eq_refl eq_refl) as [Hk Hend].
  destruct (Hk 1%nat (Sample.snapshot 1 2 2) eq_refl) as (Hcall & Hcur & Hret).
  split; [reflexivity|]. split; [reflexivity|]. split; [reflexivity|].
  split; [reflexivity|].
  split; [exact Hcall|]. split; [exact Hcur|].
  split; [exact (Hret eq_refl) | exact Hend].
Defined.

Lemma reopen_resets_cursor_witness :
  _frame midway = 1
  ∧ disk (Sample.world "posix") !! filename midway
    = Some (Sample.snapshot 0 2 2 :: [Sample.snapshot 1 2 2; Sample.snapshot 2 2 2])
  ∧ n_atoms_in (Sample.snapshot 0 2 2) = n_atoms midway
  ∧ _frame (fst (snd (_reopen (midway, Sample.world "posix")))) = -1
  ∧ fst (_reopen (midway, Sample.world "posix")) = inr tt
  ∧ fst (_read_next_timestep (fst (snd (_reopen (midway, Sample.world "posix")))))
    = inr (committed 0 (Sample.snapshot 0 2 2) (ts midway)).
Proof.
  destruct (reopen_resets_cursor midway (Sample.world "posix"))
    as (Hcur & _ & Hnext).
  destruct (Hnext (Sample.snapshot 0 2 2)
                  [Sample.snapshot 1 2 2; Sample.snapshot 2 2 2] eq_refl)
    as (Hret & _ & Hread).
  split; [reflexivity|]. split; [reflexivity|]. split; [reflexivity|].
  split; [exact Hcur|]. split; [exact Hret | exact (Hread eq_refl)].
Defined.

Lemma windows_guard_witness :
  os_name (Sample.world "nt") = "nt"
  ∧ new_GSDReader "steady.gsd" (Sample.world "nt")
    = (inl (NotImplementedError "GSD format not supported on Windows"),
       Sample.world "nt")
  ∧ io_log (snd (new_GSDReader "steady.gsd" (Sample.world "nt"))) = [].
Proof.
  split; [reflexivity|].
  exact (windows_guard "steady.gsd" (Sample.world "nt") eq_refl).
Defined.

Lemma count_checked_is_array_length_witness :
  new_GSDReader "steady.gsd" (Sample.world "posix")
    = (inr constructed, opened "posix")
  ∧ n_atoms constructed = gsd.N (gsd.particles (Sample.snapshot 0 2 2))
  ∧ gsd.getitem (_file varying) 3 = inr (Sample.snapshot 3 2 7)
  ∧ gsd.N (gsd.particles (Sample.snapshot 3 2 7)) = 7
  ∧ Z.of_nat (length (gsd.position (gsd.particles (Sample.snapshot 3 2 7))))
    = n_atoms varying
  ∧ ∃ t, fst (_read_frame 3 varying) = inr t.
Proof.
  destruct (@count_checked_is_array_length sym _) as (Hnew & Hread & _).
  assert (new_GSDReader "steady.gsd" (Sample.world "posix")
          = (inr constructed, opened "posix")) as Hrun by (vm_compute; reflexivity).
  split; [exact Hrun|].
  destruct (Hnew _ _ _ _ Hrun) as (f0 & fs & Hdisk & Hn).
  split; [reflexivity|]. split; [reflexivity|]. split; [reflexivity|].
  split; [reflexivity|].
  apply (proj2 (Hread varying 3 (Sample.snapshot 3 2 7) eq_refl)). reflexivity.
Defined.

End Runs.

(** * Further properties of the reader *)

Section Reads.
Context {F : Type} `{Float F}.
Implicit Types (r : GSDReader F) (f : gsd.Snapshot F) (t : Timestep F).
Implicit Types (h : gsd.HOOMDTrajectory F) (w : World F) (i j : Z).

(** ** What a read that returns has stored *)

(** X1. A read that finds its frame with the reference particle count
    returns the reader's own timestep, now holding the frame's position,
    velocity and image arrays and its step under ["step"]; every other key of
    [data] is as it was. *)
Theorem read_frame_commits r i f :
  gsd.getitem (_file r) i = inr f →
  n_atoms_in f = n_atoms r →
  ∃ r', _read_frame i r = (inr (ts r'), r')
    ∧ positions (ts r') = gsd.position (gsd.particles f)
    ∧ velocities (ts r') = Some (gsd.velocity (gsd.particles f))
    ∧ images (ts r') = Some (gsd.image (gsd.particles f))
    ∧ data (ts r') !! "step" = Some (gsd.step (gsd.configuration f))
    ∧ (∀ k, k ≠ "step" → data (ts r') !! k = data (ts r) !! k).
Proof.
  intros Hget Hn. rewrite (read_frame_found _ _ _ Hget).
  rewrite bool_decide_false by (intros Hne; by apply Hne).
  exists (set_ts (committed i f (ts r)) (set_frame i r)).
  split; [reflexivity|]. cbn.
  repeat split; [apply lookup_insert_eq|].
  intros k Hk. by apply lookup_insert_ne.
Qed.

(** ** Reads and the rest of the session *)

(** X2. No read changes the file name, the container or the reference
    count, so neither does any number of sequential reads, and [n_frames]
    answers after a read what it answered before. *)
Theorem reads_keep_session r i (k : nat) :
  (filename (snd (_read_frame i r)) = filename r
   ∧ _file (snd (_read_frame i r)) = _file r
   ∧ n_atoms (snd (_read_frame i r)) = n_atoms r)
  ∧ (filename (after_next k r) = filename r
     ∧ _file (after_next k r) = _file r
     ∧ n_atoms (after_next k r) = n_atoms r)
  ∧ fst (n_frames (snd (_read_frame i r))) = fst (n_frames r).
Proof.
  assert (∀ r0 i0, filename (snd (_read_frame i0 r0)) = filename r0
                   ∧ _file (snd (_read_frame i0 r0)) = _file r0
                   ∧ n_atoms (snd (_read_frame i0 r0)) = n_atoms r0) as Hone.
  { intros r0 i0. destruct (gsd.getitem (_file r0) i0) as [e|f] eqn:Hget.
    - by rewrite (read_frame_raised _ _ _ Hget).
    - rewrite (read_frame_found _ _ _ Hget). by case_bool_decide. }
  split; [apply Hone|]. split.
  - induction k as [|k (IHa & IHb & IHc)]; [done|]. cbn [after_next].
    rewrite next_is_read_frame.
    destruct (Hone (after_next k r) (_frame (after_next k r) + 1))
      as (-> & -> & ->). done.
  - unfold n_frames. cbn. by destruct (Hone r i) as (_ & -> & _).
Qed.

(** What a read does to [data]: nothing, or a store under ["step"]. *)
Lemma read_frame_data r i :
  data (ts (snd (_read_frame i r))) = data (ts r)
  ∨ ∃ s, data (ts (snd (_read_frame i r))) = <["step" := s]> (data (ts r)).
Proof.
  destruct (gsd.getitem (_file r) i) as [e|f] eqn:Hget.
  - left. by rewrite (read_frame_raised _ _ _ Hget).
  - right. exists (gsd.step (gsd.configuration f)).
    rewrite (read_frame_found _ _ _ Hget). by case_bool_decide.
Qed.

(** X3. Access is random: what the read of key [j] answers (the timestep it
    returns, or the exception it raises) is the same after any other read
    as before it. *)
Theorem read_frame_history_independent r i j :
  fst (_read_frame j (snd (_read_frame i r))) = fst (_read_frame j r).
Proof.
  destruct (read_frame_keeps r i) as [Hfile Hn].
  pose proof (read_frame_data r i) as Hdata.
  set (r' := snd (_read_frame i r)) in *.
  destruct (gsd.getitem (_file r) j) as [e|f] eqn:Hget.
  - rewrite (read_frame_raised r j e) by exact Hget.
    by rewrite (read_frame_raised r' j e) by (by rewrite Hfile).
  - rewrite (read_frame_found r j f) by exact Hget.
    rewrite (read_frame_found r' j f) by (by rewrite Hfile).
    rewrite Hn. case_bool_decide; [done|]. cbn. f_equal.
    unfold committed. f_equal.
    destruct Hdata as [->|[s ->]]; [done|]. apply insert_insert_eq.
Qed.

(** X4. Reading the same key twice in a row is reading it once: same
    answer, same reader. *)
Theorem read_frame_idempotent r i :
  _read_frame i (snd (_read_frame i r)) = _read_frame i r.
Proof.
  destruct (gsd.getitem (_file r) i) as [e|f] eqn:Hget.
  - rewrite (read_frame_raised r i e) by exact Hget. cbn.
    by rewrite (read_frame_raised r i e) by exact Hget.
  - rewrite (read_frame_found r i f) by exact Hget.
    case_bool_decide as Hc; cbn [snd].
    + rewrite (read_frame_found _ i f) by exact Hget.
      cbn [n_atoms set_ts set_frame]. rewrite bool_decide_true by exact Hc.
      f_equal. unfold set_ts, set_frame, decoded. cbn.
      by rewrite insert_insert_eq.
    + rewrite (read_frame_found _ i f) by exact Hget.
      cbn [n_atoms set_ts set_frame].
      rewrite bool_decide_false by (intros Hne; by apply Hne).
      unfold set_ts, set_frame, committed. cbn.
      by rewrite insert_insert_eq.
Qed.

(** X5. Only [IndexError] is translated: any other exception of the
    container leaves the read as it is, and nothing has been assigned. *)
Theorem other_errors_propagate r i e :
  gsd.getitem (_file r) i = inl e →
  e ≠ IndexError →
  _read_frame i r = (inl e, r).
Proof.
  intros Hget Hne. rewrite (read_frame_raised _ _ _ Hget).
  by destruct e.
Qed.

(** ** The end of the trajectory *)

(** A read raises [IOError] only where nothing was assigned. *)
Lemma IOError_changes_nothing r i :
  fst (_read_frame i r) = inl IOError → snd (_read_frame i r) = r.
Proof.
  destruct (gsd.getitem (_file r) i) as [e|f] eqn:Hget.
  - by rewrite (read_frame_raised _ _ _ Hget).
  - rewrite (read_frame_found _ _ _ Hget). by case_bool_decide.
Qed.

(** X6. The end of the data is final: once [_read_next_timestep] has raised
    [IOError], the reader is unchanged and every further call raises
    [IOError] again. *)
Theorem end_of_data_is_final r (k : nat) :
  fst (_read_next_timestep r) = inl IOError →
  after_next k r = r
  ∧ _read_next_timestep (after_next k r) = (inl IOError, r).
Proof.
  intros Hend.
  assert (snd (_read_next_timestep r) = r) as Hsame
    by (rewrite next_is_read_frame in *; by apply IOError_changes_nothing).
  assert (after_next k r = r) as ->.
  { induction k as [|k IH]; [done|]. cbn [after_next]. by rewrite IH. }
  split; [done|].
  destruct (_read_next_timestep r) as [res r']. cbn in *. by subst.
Qed.

(** X7. [n_frames] is where non-negative keys stop: when it answers [n], a
    read at a key [i ≥ 0] raises [IOError] exactly when [n ≤ i]. *)
Theorem n_frames_is_the_bound r (n : Z) i :
  fst (n_frames r) = inr n →
  0 ≤ i →
  fst (_read_frame i r) = inl IOError ↔ n ≤ i.
Proof.
  unfold n_frames, gsd.len. cbn.
  destruct (gsd.is_open (_file r)) eqn:Hopen; [|done].
  intros [= <-] Hi. split.
  - intros Hio. destruct (Z.le_gt_cases (gsd.nframes (_file r)) i) as [|Hlt];
      [done|].
    destruct (getitem_in_range (_file r) i Hopen) as (f & _ & Hget); [lia|].
    rewrite (read_frame_found _ _ _ Hget) in Hio.
    by case_bool_decide.
  - intros Hle. by rewrite read_frame_past_end.
Qed.

(** ** A seek, then sequential reads *)

Lemma after_next_cursor_from r (c : Z) (k : nat) :
  _frame r = c → -1 ≤ c → gsd.is_open (_file r) = true →
  c + Z.of_nat k < gsd.nframes (_file r) →
  _frame (after_next k r) = c + Z.of_nat k.
Proof.
  intros Hc Hlo Hopen. induction k as [|k IH]; intros Hk; [cbn; lia|].
  cbn [after_next]. rewrite next_is_read_frame, IH by lia.
  destruct (after_next_keeps k r) as [Hfile _].
  destruct (getitem_in_range (_file r) (c + Z.of_nat k + 1) Hopen)
    as (f & _ & Hget); [lia|].
  rewrite (read_frame_cursor _ _ f) by (by rewrite Hfile). lia.
Qed.

(** X8. Sequential reads go on from wherever a read has put the cursor:
    after a read that found key [i ≥ 0], whether or not the count was
    accepted, call number [k] of [_read_next_timestep] is the read of
    frame [i + 1 + k], for as long as that is a frame. *)
Theorem next_follows_seek r i f (k : nat) :
  gsd.is_open (_file r) = true →
  0 ≤ i →
  gsd.getitem (_file r) i = inr f →
  i + 1 + Z.of_nat k < gsd.nframes (_file r) →
  let rk := after_next k (snd (_read_frame i r)) in
  _read_next_timestep rk = _read_frame (i + 1 + Z.of_nat k) rk
  ∧ _frame (snd (_read_next_timestep rk)) = i + 1 + Z.of_nat k.
Proof.
  intros Hopen Hi Hget Hk rk. subst rk.
  destruct (read_frame_keeps r i) as [Hfile _].
  pose proof (read_frame_cursor r i f Hget) as Hcur.
  set (r' := snd (_read_frame i r)) in *.
  assert (_frame (after_next k r') = i + Z.of_nat k) as Hat
    by (apply after_next_cursor_from; rewrite ?Hfile; (done || lia)).
  rewrite next_is_read_frame, Hat.
  replace (i + Z.of_nat k + 1) with (i + 1 + Z.of_nat k) by lia.
  split; [done|].
  destruct (after_next_keeps k r') as [Hfile' _].
  destruct (getitem_in_range (_file r) (i + 1 + Z.of_nat k) Hopen)
    as (f' & _ & Hget'); [lia|].
  apply read_frame_cursor with f'. by rewrite Hfile', Hfile.
Qed.

End Reads.

Section Sessions.
Context {F : Type} `{Float F}.
Implicit Types (r : GSDReader F) (f : gsd.Snapshot F) (t : Timestep F).
Implicit Types (h : gsd.HOOMDTrajectory F) (w : World F) (i j : Z).

(** ** Negative keys *)

Lemma getitem_negative h i f :
  gsd.is_open h = true → gsd.negative_keys h = true →
  i < 0 → 0 ≤ gsd.nframes h + i →
  gsd.frames h !! Z.to_nat (gsd.nframes h + i) = Some f →
  gsd.getitem h i = inr f.
Proof.
  intros Hopen Hneg Hi Hlo Hf. unfold gsd.getitem, gsd.len.
  rewrite Hopen, Hneg.
  assert ((i <? 0) = true) as -> by (by apply Z.ltb_lt).
  cbn [andb]. cbn zeta.
  assert ((gsd.nframes h <=? i + gsd.nframes h) = false) as ->
    by (apply Z.leb_gt; lia).
  assert ((i + gsd.nframes h <? 0) = false) as -> by (apply Z.ltb_ge; lia).
  cbn [orb]. replace (i + gsd.nframes h) with (gsd.nframes h + i) by lia.
  by rewrite Hf.
Qed.

(** X9. The cursor is the key as given, not the position it resolved to.
    Where the container counts a negative key from the end, the read of
    [i < 0] returns the data of frame [n_frames + i] under the frame number
    [i], leaves the cursor at [i], and the next sequential read is the read
    of key [i + 1]: after key [-1], of frame 0. *)
Theorem negative_key_is_kept r i f :
  gsd.is_open (_file r) = true →
  gsd.negative_keys (_file r) = true →
  i < 0 → 0 ≤ gsd.nframes (_file r) + i →
  gsd.frames (_file r) !! Z.to_nat (gsd.nframes (_file r) + i) = Some f →
  n_atoms_in f = n_atoms r →
  let r' := snd (_read_frame i r) in
  fst (_read_frame i r) = inr (committed i f (ts r))
  ∧ frame (ts r') = i
  ∧ _frame r' = i
  ∧ _read_next_timestep r' = _read_frame (i + 1) r'.
Proof.
  intros Hopen Hneg Hi Hlo Hf Hn r'. subst r'.
  pose proof (getitem_negative _ _ _ Hopen Hneg Hi Hlo Hf) as Hget.
  rewrite next_is_read_frame.
  rewrite (read_frame_found _ _ _ Hget).
  by rewrite bool_decide_false by (intros Hne; by apply Hne).
Qed.

(** ** The constructor *)

(** Off Windows, what the constructor answers is decided by what the path
    holds. *)
Lemma new_GSDReader_outcome path w :
  os_name w ≠ "nt" →
  new_GSDReader path w =
    match disk w !! path with
    | None => (inl IOError, log_io (EvOpen path) w)
    | Some [] => (inl IndexError, log_io (EvOpen path) w)
    | Some (f0 :: fs) =>
      let n := gsd.N (gsd.particles f0) in
      if bool_decide (n_atoms_in f0 ≠ n)
      then (inl (ValueError (mismatch_message 0 (n_atoms_in f0) n)),
            log_io (EvOpen path) w)
      else (inr {| filename := path;
                   _file := {| gsd.name := path; gsd.frames := f0 :: fs;
                               gsd.is_open := true;
                               gsd.negative_keys := gsd_negative_keys w |};
                   _frame := 0; n_atoms := n;
                   ts := committed 0 f0 (new_Timestep n) |},
            log_io (EvOpen path) w)
    end.
Proof.
  intros Hos. unfold new_GSDReader, __init__.
  unfold mbind at 1, M_bind at 1, on_world at 1, gets at 1. cbn [fst snd].
  rewrite bool_decide_false by exact Hos.
  unfold mbind at 1, M_bind at 1, on_self at 1, modify at 1.
  unfold mbind at 1, M_bind at 1.
  rewrite open_trajectory_outcome. cbn [filename set_filename blank].
  destruct (disk w !! path) as [[|f0 fs]|]; [| |by cbn];
    unfold mbind, M_bind, on_self, file_getitem, modify, gets, mret, M_ret;
    cbn [_file set_file set_frame set_filename].
  { rewrite (getitem_out_of_range _ 0)
      by (try done; left; unfold gsd.nframes; cbn; lia).
    by cbn. }
  rewrite (getitem_nat _ 0%nat f0) by done.
  rewrite next_is_read_frame.
  cbn [_frame n_atoms set_ts set_n_atoms set_file set_frame].
  change (-1 + 1) with 0.
  match goal with |- context [_read_frame 0 ?R] => set (r0 := R) end.
  assert (gsd.getitem (_file r0) 0 = inr f0) as Hget
    by (by apply (getitem_nat _ 0%nat)).
  rewrite (read_frame_found _ _ _ Hget).
  change (n_atoms r0) with (gsd.N (gsd.particles f0)).
  cbn zeta. by case_bool_decide.
Qed.

(** X10. Off Windows, on a path that holds a container whose first frame
    declares as many particles as its position array has, the constructor
    returns a reader positioned on frame 0: cursor 0, the declared count as
    reference, the timestep of frame 0 on a fresh timestep, the container
    open; it has opened the path once and closed nothing; and the next
    sequential read is the read of frame 1. *)
Theorem constructor_reads_frame_0 path w f0 fs :
  os_name w ≠ "nt" →
  disk w !! path = Some (f0 :: fs) →
  n_atoms_in f0 = gsd.N (gsd.particles f0) →
  ∃ r, new_GSDReader path w = (inr r, log_io (EvOpen path) w)
    ∧ filename r = path
    ∧ gsd.frames (_file r) = f0 :: fs ∧ gsd.is_open (_file r) = true
    ∧ _frame r = 0
    ∧ n_atoms r = gsd.N (gsd.particles f0)
    ∧ ts r = committed 0 f0 (new_Timestep (gsd.N (gsd.particles f0)))
    ∧ _read_next_timestep r = _read_frame 1 r.
Proof.
  intros Hos Hdisk Hn. rewrite (new_GSDReader_outcome _ _ Hos), Hdisk.
  cbn zeta. rewrite bool_decide_false by (intros Hne; by apply Hne).
  eexists. split; [reflexivity|]. by cbn.
Qed.

(** X11. Frame 0 is looked up outside any handler: off Windows, on a
    container without frames the constructor raises the container's
    [IndexError] itself, not the [IOError] a read would. *)
Theorem constructor_on_empty_container path w :
  os_name w ≠ "nt" →
  disk w !! path = Some [] →
  new_GSDReader path w = (inl IndexError, log_io (EvOpen path) w).
Proof.
  intros Hos Hdisk. by rewrite (new_GSDReader_outcome _ _ Hos), Hdisk.
Qed.

(** X12. The reference is frame 0's declared count and the first read
    checks the position array against it: off Windows, when the two differ
    in frame 0 the constructor raises the mismatch [ValueError] for
    frame 0. *)
Theorem constructor_checks_frame_0 path w f0 fs :
  os_name w ≠ "nt" →
  disk w !! path = Some (f0 :: fs) →
  n_atoms_in f0 ≠ gsd.N (gsd.particles f0) →
  new_GSDReader path w
  = (inl (ValueError (mismatch_message 0 (n_atoms_in f0)
                                       (gsd.N (gsd.particles f0)))),
     log_io (EvOpen path) w).
Proof.
  intros Hos Hdisk Hn. rewrite (new_GSDReader_outcome _ _ Hos), Hdisk.
  cbn zeta. by rewrite bool_decide_true by exact Hn.
Qed.

(** ** Closing and reopening *)

(** X13. [close], [open_trajectory] and [_reopen] replace the container
    and the cursor and nothing else: the file name, the reference count and
    the timestep (its frame number included) are what they were, whether or
    not the path could be opened. *)
Theorem reopen_keeps_timestep r w :
  let kept (r' : GSDReader F) :=
    filename r' = filename r ∧ n_atoms r' = n_atoms r ∧ ts r' = ts r in
  kept (fst (snd (close (r, w))))
  ∧ kept (fst (snd (open_trajectory (r, w))))
  ∧ kept (fst (snd (_reopen (r, w)))).
Proof.
  cbn zeta. unfold _reopen, mbind, M_bind.
  rewrite close_outcome. rewrite !open_trajectory_outcome.
  cbn [filename set_file].
  assert (∀ w0 : World F, disk (if gsd.is_open (_file r)
                     then log_io (EvClose (gsd.name (_file r))) w0 else w0)
          = disk w0) as Hdisk by (intros w0; by destruct (gsd.is_open _)).
  rewrite Hdisk.
  by destruct (disk w !! filename r).
Qed.

(** X14. Reopening an open reader closes its container, then opens the
    path again, in that order and once each, and the reader reads from
    what the path holds now. *)
Theorem reopen_closes_then_opens r w fs :
  gsd.is_open (_file r) = true →
  disk w !! filename r = Some fs →
  let r' := fst (snd (_reopen (r, w))) in
  let w' := snd (snd (_reopen (r, w))) in
  fst (_reopen (r, w)) = inr tt
  ∧ io_log w' = EvOpen (filename r) :: EvClose (gsd.name (_file r)) :: io_log w
  ∧ gsd.frames (_file r') = fs
  ∧ gsd.is_open (_file r') = true
  ∧ gsd.name (_file r') = filename r.
Proof.
  intros Hopen Hdisk. cbn zeta. unfold _reopen, mbind, M_bind.
  rewrite close_outcome, open_trajectory_outcome, Hopen.
  cbn [filename set_file log_io disk]. by rewrite Hdisk.
Qed.

(** X15. A reopen that cannot open the path raises [IOError] after the
    container has been closed and the cursor reset: the reader is left
    closed, at cursor [-1]. *)
Theorem failed_reopen_leaves_closed r w :
  disk w !! filename r = None →
  let r' := fst (snd (_reopen (r, w))) in
  fst (_reopen (r, w)) = inl IOError
  ∧ gsd.is_open (_file r') = false
  ∧ gsd.frames (_file r') = gsd.frames (_file r)
  ∧ _frame r' = -1.
Proof.
  intros Hdisk. cbn zeta. unfold _reopen, mbind, M_bind.
  rewrite close_outcome, open_trajectory_outcome.
  cbn [filename set_file].
  assert (disk (if gsd.is_open (_file r)
                then log_io (EvClose (gsd.name (_file r))) w else w)
          = disk w) as -> by (by destruct (gsd.is_open _)).
  by rewrite Hdisk.
Qed.

End Sessions.

(** * Further runs on the sample trajectories *)

Section MoreRuns.
Import SampleRuns.

Lemma read_frame_commits_witness :
  gsd.getitem (_file steady) 2 = inr (Sample.snapshot 2 2 2)
  ∧ n_atoms_in (Sample.snapshot 2 2 2) = n_atoms steady
  ∧ ∃ r', _read_frame 2 steady = (inr (ts r'), r')
      ∧ positions (ts r') = [(SInt 2, SInt 0, SInt 0); (SInt 3, SInt 0, SInt 0)]
      ∧ images (ts r') = Some [(0, 0, 2); (0, 0, 2)]
      ∧ data (ts r') !! "step" = Some 200.
Proof.
  split; [reflexivity|]. split; [reflexivity|].
  destruct (read_frame_commits steady 2 (Sample.snapshot 2 2 2) eq_refl eq_refl)
    as (r' & Hrun & Hp & _ & Hi & Hs & _).
  exists r'. repeat split; assumption.
Defined.

Lemma other_errors_propagate_witness :
  gsd.getitem (_file SampleEdge.closed) 0 = inl (ValueError "File is not open")
  ∧ ValueError "File is not open" ≠ IndexError
  ∧ _read_frame 0 SampleEdge.closed
    = (inl (ValueError "File is not open"), SampleEdge.closed).
Proof.
  split; [reflexivity|]. split; [discriminate|].
  apply (other_errors_propagate SampleEdge.closed 0); [reflexivity|discriminate].
Defined.

Lemma end_of_data_is_final_witness :
  fst (_read_next_timestep (after_next 3 steady)) = inl IOError
  ∧ after_next 2 (after_next 3 steady) = after_next 3 steady
  ∧ _read_next_timestep (after_next 2 (after_next 3 steady))
    = (inl IOError, after_next 3 steady).
Proof.
  assert (fst (_read_next_timestep (after_next 3 steady)) = inl IOError) as Hend
    by (vm_compute; reflexivity).
  split; [exact Hend|].
  exact (end_of_data_is_final (after_next 3 steady) 2 Hend).
Defined.

Lemma n_frames_is_the_bound_witness :
  fst (n_frames steady) = inr 3
  ∧ 0 ≤ 5
  ∧ (fst (_read_frame 5 steady) = inl IOError ↔ 3 ≤ 5).
Proof.
  assert (0 ≤ 5) as Hpos by (intros Hgt; discriminate Hgt).
  split; [reflexivity|]. split; [exact Hpos|].
  exact (n_frames_is_the_bound steady 3 5 eq_refl Hpos).
Defined.

Lemma next_follows_seek_witness :
  gsd.is_open (_file varying) = true
  ∧ 0 ≤ 1
  ∧ gsd.getitem (_file varying) 1 = inr (Sample.snapshot 1 3 3)
  ∧ 1 + 1 + Z.of_nat 1 < gsd.nframes (_file varying)
  ∧ _frame (snd (_read_next_timestep
                   (after_next 1 (snd (_read_frame 1 varying))))) = 3.
Proof.
  assert (0 ≤ 1) as Hpos by (intros Hgt; discriminate Hgt).
  split; [reflexivity|]. split; [exact Hpos|]. split; [reflexivity|].
  split; [reflexivity|].
  exact (proj2 (next_follows_seek varying 1 (Sample.snapshot 1 3 3) 1
                  eq_refl Hpos eq_refl eq_refl)).
Defined.

Lemma negative_key_is_kept_witness :
  gsd.is_open (_file steady) = true
  ∧ gsd.negative_keys (_file steady) = true
  ∧ -1 < 0 ∧ 0 ≤ gsd.nframes (_file steady) + -1
  ∧ gsd.frames (_file steady) !! Z.to_nat (gsd.nframes (_file steady) + -1)
    = Some (Sample.snapshot 2 2 2)
  ∧ n_atoms_in (Sample.snapshot 2 2 2) = n_atoms steady
  ∧ fst (_read_frame (-1) steady)
    = inr (committed (-1) (Sample.snapshot 2 2 2) (ts steady))
  ∧ _frame (snd (_read_frame (-1) steady)) = -1
  ∧ _read_next_timestep (snd (_read_frame (-1) steady))
    = _read_frame 0 (snd (_read_frame (-1) steady)).
Proof.
  assert (0 ≤ gsd.nframes (_file steady) + -1) as Hlo
    by (intros Hgt; discriminate Hgt).
  destruct (negative_key_is_kept steady (-1) (Sample.snapshot 2 2 2)
              eq_refl eq_refl eq_refl Hlo eq_refl eq_refl)
    as (Hret & _ & Hcur & Hnext).
  split; [reflexivity|]. split; [reflexivity|]. split; [reflexivity|].
  split; [exact Hlo|]. split; [reflexivity|]. split; [reflexivity|].
  split; [exact Hret|]. split; [exact Hcur | exact Hnext].
Defined.

Lemma constructor_reads_frame_0_witness :
  os_name (Sample.world "posix") ≠ "nt"
  ∧ disk (Sample.world "posix") !! "steady.gsd"
    = Some (Sample.snapshot 0 2 2 :: [Sample.snapshot 1 2 2; Sample.snapshot 2 2 2])
  ∧ n_atoms_in (Sample.snapshot 0 2 2) = gsd.N (gsd.particles (Sample.snapshot 0 2 2))
  ∧ ∃ r, new_GSDReader "steady.gsd" (Sample.world "posix")
           = (inr r, log_io (EvOpen "steady.gsd") (Sample.world "posix"))
      ∧ _frame r = 0 ∧ n_atoms r = 2.
Proof.
  assert (os_name (Sample.world "posix") ≠ "nt") as Hos by discriminate.
  split; [exact Hos|]. split; [reflexivity|]. split; [reflexivity|].
  destruct (constructor_reads_frame_0 "steady.gsd" (Sample.world "posix")
              (Sample.snapshot 0 2 2)
              [Sample.snapshot 1 2 2; Sample.snapshot 2 2 2]
              Hos eq_refl eq_refl)
    as (r & Hrun & _ & _ & _ & Hcur & Hn & _).
  exists r. split; [exact Hrun|]. split; [exact Hcur | exact Hn].
Defined.

Lemma constructor_on_empty_container_witness :
  os_name SampleEdge.world ≠ "nt"
  ∧ disk SampleEdge.world !! "empty.gsd" = Some []
  ∧ new_GSDReader "empty.gsd" SampleEdge.world
    = (inl IndexError, log_io (EvOpen "empty.gsd") SampleEdge.world).
Proof.
  assert (os_name SampleEdge.world ≠ "nt") as Hos by discriminate.
  split; [exact Hos|]. split; [reflexivity|].
  exact (constructor_on_empty_container "empty.gsd" SampleEdge.world
           Hos eq_refl).
Defined.

Lemma constructor_checks_frame_0_witness :
  os_name SampleEdge.world ≠ "nt"
  ∧ disk SampleEdge.world !! "misdeclared.gsd" = Some [Sample.snapshot 0 2 5]
  ∧ n_atoms_in (Sample.snapshot 0 2 5) ≠ gsd.N (gsd.particles (Sample.snapshot 0 2 5))
  ∧ new_GSDReader "misdeclared.gsd" SampleEdge.world
    = (inl (ValueError (mismatch_message 0 2 5)),
       log_io (EvOpen "misdeclared.gsd") SampleEdge.world).
Proof.
  assert (os_name SampleEdge.world ≠ "nt") as Hos by discriminate.
  assert (n_atoms_in (Sample.snapshot 0 2 5)
          ≠ gsd.N (gsd.particles (Sample.snapshot 0 2 5))) as Hn by discriminate.
  split; [exact Hos|]. split; [reflexivity|]. split; [exact Hn|].
  exact (constructor_checks_frame_0 "misdeclared.gsd" SampleEdge.world
           (Sample.snapshot 0 2 5) [] Hos eq_refl Hn).
Defined.

Lemma reopen_closes_then_opens_witness :
  gsd.is_open (_file midway) = true
  ∧ disk (Sample.world "posix") !! filename midway = Some Sample.steady
  ∧ fst (_reopen (midway, Sample.world "posix")) = inr tt
  ∧ io_log (snd (snd (_reopen (midway, Sample.world "posix"))))
    = [EvOpen "steady.gsd"; EvClose "steady.gsd"].
Proof.
  split; [reflexivity|]. split; [reflexivity|].
  destruct (reopen_closes_then_opens midway (Sample.world "posix")
              Sample.steady eq_refl eq_refl) as (Hret & Hlog & _).
  split; [exact Hret | exact Hlog].
Defined.

Lemma failed_reopen_leaves_closed_witness :
  disk (Sample.world "posix")
    !! filename (Sample.reader "gone.gsd" Sample.steady) = None
  ∧ fst (_reopen (Sample.reader "gone.gsd" Sample.steady, Sample.world "posix"))
    = inl IOError
  ∧ gsd.is_open (_file (fst (snd (_reopen
        (Sample.reader "gone.gsd" Sample.steady, Sample.world "posix")))))
    = false.
Proof.
  split; [reflexivity|].
  destruct (failed_reopen_leaves_closed
              (Sample.reader "gone.gsd" Sample.steady) (Sample.world "posix")
              eq_refl) as (Hret & Hclosed & _).
  split; [exact Hret | exact Hclosed].
Defined.

End MoreRuns.
